(** * Audio-Emotion: the upload form (frontend/src/app/page.tsx).

    The repository's TypeScript page is embedded from its source: the React
    state of [Home] is a record, every handler is a function on that record
    that applies the handler's setter calls in program order, and the one
    asynchronous handler ([handleSubmit]) is cut at its [await] into the part
    that runs before the request and the part that runs when the request
    settles.  The page comes in two versions; the later one, with drag and
    drop, is the one embedded.  The earlier one has the same handlers and the
    same tests, less [handleDrop], the two drag handlers and [isDragging],
    and words the empty upload box differently.

    The Python prediction service is not among the sources and is not
    modelled: a request's answer is an input of the page ([AxiosOutcome]),
    and a health or model-list answer is an event. *)

From Stdlib Require Import Bool Arith Lia List String Ascii ZArith Floats.
From Stdlib Require Import DecimalString.
Import ListNotations.

Local Open Scope string_scope.
Local Open Scope bool_scope.

(* ================================================================== *)
(** ** JavaScript strings and numbers as the page uses them *)
(* ================================================================== *)

Module JS.

(** A JavaScript string is kept as a Rocq [string]; the page only inspects
    ASCII letters, digits, [.] and [_]. *)

(** [String.prototype.toLowerCase], on the ASCII letters.  Characters outside
    [A-Z] are left as they are: no character outside ASCII lowers to one of
    the characters of [".mp3"] or [".wav"]. *)
Definition lower_char (c : ascii) : ascii :=
  let n := nat_of_ascii c in
  if (65 <=? n)%nat && (n <=? 90)%nat then ascii_of_nat (n + 32) else c.

Fixpoint toLowerCase (s : string) : string :=
  match s with
  | EmptyString => EmptyString
  | String c rest => String (lower_char c) (toLowerCase rest)
  end.

(** [String.prototype.toUpperCase], on the ASCII letters.  Letters outside
    ASCII, which the engine also maps (some to ASCII letters, some to more
    than one character), are left as they are: how the page shows an emotion
    spelt with such letters is outside this embedding. *)
Definition upper_char (c : ascii) : ascii :=
  let n := nat_of_ascii c in
  if (97 <=? n)%nat && (n <=? 122)%nat then ascii_of_nat (n - 32) else c.

Fixpoint toUpperCase (s : string) : string :=
  match s with
  | EmptyString => EmptyString
  | String c rest => String (upper_char c) (toUpperCase rest)
  end.

(** [String.prototype.endsWith(search)] with no end position: the start index
    is [length s - length search]; a negative start answers [false], otherwise
    the code units from the start are compared with [search]. *)
Definition endsWith (s search : string) : bool :=
  let len := String.length s in
  let searchLength := String.length search in
  if (len <? searchLength)%nat then false
  else String.eqb (substring (len - searchLength) searchLength s) search.

(** Truthiness of a string in a condition ([if (chorusStart)], [a || b]):
    exactly the non-empty strings are truthy. *)
Definition truthy (s : string) : bool :=
  match s with
  | EmptyString => false
  | String _ _ => true
  end.

(** [s.replace(/_/g, ' ')]: every underscore becomes a space. *)
Fixpoint replace_underscores (s : string) : string :=
  match s with
  | EmptyString => EmptyString
  | String c rest =>
      String (if Ascii.eqb c "_"%char then " "%char else c) (replace_underscores rest)
  end.

(** Decimal digits of a non-negative integer, ["0"] for zero. *)
Definition digits (n : Z) : string :=
  NilZero.string_of_uint (N.to_uint (Z.to_N n)).

Fixpoint zeros (n : nat) : string :=
  match n with
  | O => ""
  | S k => String "0"%char (zeros k)
  end.

(** Steps 9 and 10 of [Number.prototype.toFixed]: the digits of [n], padded
    on the left to [f + 1] digits, with the point before the last [f]. *)
Definition fixed_string (n : Z) (f : nat) : string :=
  let m := digits n in
  match f with
  | O => m
  | S _ =>
      let k := String.length m in
      let m := if (k <=? f)%nat then zeros (f + 1 - k) ++ m else m in
      let k := String.length m in
      substring 0 (k - f) m ++ "." ++ substring (k - f) f m
  end.

Section NumberFormat.

(** [Number::toString], the shortest text that reads back as the same
    double.  It is the engine's; the page reaches it through template
    literals and through [toFixed] on values that are not finite or are at
    least [1e21]. *)
Variable Number_toString : float -> string.

(** [Number.prototype.toFixed(fractionDigits)] on a double [x].  A finite
    [x] is [m * 2^e] exactly; below [1e21] the result is the integer [n]
    nearest to [x * 10^f] (the larger one on a tie), printed with [f]
    decimals, behind a minus sign when [x < 0].  Both zeros print
    unsigned.  From [1e21] on, and for values that are not finite, the text
    is that of [Number::toString]. *)
Definition toFixed (x : float) (fractionDigits : nat) : string :=
  match Prim2SF x with
  | S754_zero _ => fixed_string 0 fractionDigits
  | S754_finite s m e =>
      let num := (Z.pos m * 2 ^ Z.max e 0)%Z in
      let den := (2 ^ Z.max (- e) 0)%Z in
      if (10 ^ 21 * den <=? num)%Z then Number_toString x
      else
        let n := ((2 * num * 10 ^ Z.of_nat fractionDigits + den) / (2 * den))%Z in
        (if s then "-" else "") ++ fixed_string n fractionDigits
  | _ => Number_toString x
  end.

End NumberFormat.

End JS.

(* ================================================================== *)
(** ** frontend/src/app/page.tsx *)
(* ================================================================== *)

Module Frontend.

Import JS.

(** [interface PredictionResult]: [confidence: number | null], the other two
    numbers are plain [number]s, that is IEEE doubles. *)
Record PredictionResult : Type := mkPredictionResult {
  emotion : string;
  confidence : option float;
  model_used : string;
  processing_time_ms : float;
  timestamp : string
}.

(** The browser's [File]: the page reads only its [name]; the bytes go into
    the form data untouched. *)
Record File : Type := mkFile {
  name : string;
  contents : list Byte.byte
}.

Inductive ApiStatus : Type := checking | online | offline.

(** The [useState] cells of [Home], with their initial values in [initial]. *)
Record State : Type := mkState {
  models : list string;
  selectedModel : string;
  audioFile : option File;
  chorusStart : string;
  chorusEnd : string;
  isLoading : bool;
  result : option PredictionResult;
  error : string;
  apiStatus : ApiStatus;
  isDragging : bool
}.

Definition initial : State :=
  {| models := []; selectedModel := ""; audioFile := None;
     chorusStart := ""; chorusEnd := ""; isLoading := false;
     result := None; error := ""; apiStatus := checking;
     isDragging := false |}.

(** The setters. *)
Definition setModels (v : list string) (s : State) : State :=
  mkState v (selectedModel s) (audioFile s) (chorusStart s) (chorusEnd s)
          (isLoading s) (result s) (error s) (apiStatus s) (isDragging s).
Definition setSelectedModel (v : string) (s : State) : State :=
  mkState (models s) v (audioFile s) (chorusStart s) (chorusEnd s)
          (isLoading s) (result s) (error s) (apiStatus s) (isDragging s).
Definition setAudioFile (v : option File) (s : State) : State :=
  mkState (models s) (selectedModel s) v (chorusStart s) (chorusEnd s)
          (isLoading s) (result s) (error s) (apiStatus s) (isDragging s).
Definition setChorusStart (v : string) (s : State) : State :=
  mkState (models s) (selectedModel s) (audioFile s) v (chorusEnd s)
          (isLoading s) (result s) (error s) (apiStatus s) (isDragging s).
Definition setChorusEnd (v : string) (s : State) : State :=
  mkState (models s) (selectedModel s) (audioFile s) (chorusStart s) v
          (isLoading s) (result s) (error s) (apiStatus s) (isDragging s).
Definition setIsLoading (v : bool) (s : State) : State :=
  mkState (models s) (selectedModel s) (audioFile s) (chorusStart s) (chorusEnd s)
          v (result s) (error s) (apiStatus s) (isDragging s).
Definition setResult (v : option PredictionResult) (s : State) : State :=
  mkState (models s) (selectedModel s) (audioFile s) (chorusStart s) (chorusEnd s)
          (isLoading s) v (error s) (apiStatus s) (isDragging s).
Definition setError (v : string) (s : State) : State :=
  mkState (models s) (selectedModel s) (audioFile s) (chorusStart s) (chorusEnd s)
          (isLoading s) (result s) v (apiStatus s) (isDragging s).
Definition setApiStatus (v : ApiStatus) (s : State) : State :=
  mkState (models s) (selectedModel s) (audioFile s) (chorusStart s) (chorusEnd s)
          (isLoading s) (result s) (error s) v (isDragging s).
Definition setIsDragging (v : bool) (s : State) : State :=
  mkState (models s) (selectedModel s) (audioFile s) (chorusStart s) (chorusEnd s)
          (isLoading s) (result s) (error s) (apiStatus s) v.

(** The test both file handlers make on the chosen file's name. *)
Definition is_audio_name (n : string) : bool :=
  endsWith (toLowerCase n) ".mp3" || endsWith (toLowerCase n) ".wav".

(** The body shared, word for word, by [handleFileChange] and [handleDrop]
    once a first file is at hand. *)
Definition take_file (file : File) (s : State) : State :=
  if is_audio_name (name file)
  then setError "" (setAudioFile (Some file) s)
  else setAudioFile None (setError "Please upload a valid MP3 or WAV file" s).

(** [handleFileChange]: [e.target.files] is a [FileList] or [null]; nothing
    happens unless it has a first entry. *)
Definition handleFileChange (files : option (list File)) (s : State) : State :=
  match files with
  | Some (file :: _) => take_file file s
  | _ => s
  end.

Definition handleDragEnter (s : State) : State := setIsDragging true s.
Definition handleDragLeave (s : State) : State := setIsDragging false s.

(** [handleDrop]: the drag flag is cleared first, then the dropped file is
    treated as in [handleFileChange]. *)
Definition handleDrop (files : option (list File)) (s : State) : State :=
  let s := setIsDragging false s in
  match files with
  | Some (file :: _) => take_file file s
  | _ => s
  end.

(** The form data of a prediction request: [FormData.append] adds at the
    end and never replaces, so the entries are a list in the order of the
    calls. *)
Inductive FormValue : Type :=
| FileValue (f : File)
| TextValue (v : string).

Definition FormData : Type := list (string * FormValue).

Definition append (key : string) (v : FormValue) (fd : FormData) : FormData :=
  (fd ++ [(key, v)])%list.

Definition has (key : string) (fd : FormData) : bool :=
  existsb (fun e => String.eqb (fst e) key) fd.

Fixpoint get (key : string) (fd : FormData) : option FormValue :=
  match fd with
  | [] => None
  | (k, v) :: rest => if String.eqb k key then Some v else get key rest
  end.

(** What [axios.post] hands back.  A rejection carries the error object, of
    which the handler reads [err.response?.data?.detail]; each link of that
    chain may be missing.  The service sends its [detail] as a string. *)
Record ErrorData : Type := mkErrorData { detail : option string }.
Record ErrorResponse : Type := mkErrorResponse { data : option ErrorData }.
Record AxiosError : Type := mkAxiosError { response : option ErrorResponse }.

Inductive AxiosOutcome : Type :=
| Resolved (response_data : PredictionResult)
| Rejected (err : AxiosError).

(** [err.response?.data?.detail] *)
Definition detail_of (err : AxiosError) : option string :=
  match response err with
  | Some r => match data r with
              | Some d => detail d
              | None => None
              end
  | None => None
  end.

(** [err.response?.data?.detail || 'Prediction failed. Please try again.'] *)
Definition errorMessage (err : AxiosError) : string :=
  match detail_of err with
  | Some d => if truthy d then d else "Prediction failed. Please try again."
  | None => "Prediction failed. Please try again."
  end.

(** [handleSubmit], up to its [await]: the two guards, the three setter
    calls, and the form data handed to [axios.post].  [None] for the request
    means the handler returned before sending anything. *)
Definition handleSubmit_send (s : State) : State * option FormData :=
  match audioFile s with
  | None => (setError "Please select an audio file" s, None)
  | Some file =>
      if negb (truthy (selectedModel s))
      then (setError "Please select a model" s, None)
      else
        let s' := setResult None (setError "" (setIsLoading true s)) in
        let formData := append "file" (FileValue file) [] in
        let formData := append "model_name" (TextValue (selectedModel s)) formData in
        let formData :=
          if truthy (chorusStart s)
          then append "chorus_start" (TextValue (chorusStart s)) formData
          else formData in
        let formData :=
          if truthy (chorusEnd s)
          then append "chorus_end" (TextValue (chorusEnd s)) formData
          else formData in
        (s', Some formData)
  end.

(** [handleSubmit], from the [await] on: [try] branch, [catch] branch, and
    the [finally] that runs after either. *)
Definition handleSubmit_settle (o : AxiosOutcome) (s : State) : State :=
  let s :=
    match o with
    | Resolved response_data => setResult (Some response_data) s
    | Rejected err => setError (errorMessage err) s
    end in
  setIsLoading false s.

(** One whole run of [handleSubmit] against a service [post], with no other
    handler running in between. *)
Definition handleSubmit (post : FormData -> AxiosOutcome) (s : State) : State :=
  match handleSubmit_send s with
  | (s', Some formData) => handleSubmit_settle (post formData) s'
  | (s', None) => s'
  end.

(** [checkApiHealth], by the outcome of its [axios.get]. *)
Definition checkApiHealth (reachable : bool) (s : State) : State :=
  if reachable
  then setApiStatus online s
  else setError "Cannot connect to API server. Please ensure the backend is running."
         (setApiStatus offline s).

(** [fetchModels]: [Some ms] is the [models] array of the answer, [None] a
    failed request (which only logs). *)
Definition fetchModels (answer : option (list string)) (s : State) : State :=
  match answer with
  | Some ms =>
      let s := setModels ms s in
      match ms with
      | first :: _ => setSelectedModel first s
      | [] => s
      end
  | None => s
  end.

(** What [Home] returns, as far as it depends on the state: the label of the
    upload box, the submit button, the error box and the result card. *)
Record ConfidenceView : Type := mkConfidenceView {
  bar_width : string;
  score : string
}.

Record ResultView : Type := mkResultView {
  emotion_shown : string;
  confidence_section : option ConfidenceView;
  model_shown : string;
  time_shown : string
}.

Record View : Type := mkView {
  select_disabled : bool;
  file_label : string;
  submit_disabled : bool;
  error_box : option string;
  result_box : option ResultView
}.

(** [disabled={isLoading || !audioFile || apiStatus === "offline"}] *)
Definition submitDisabled (s : State) : bool :=
  isLoading s
  || match audioFile s with None => true | Some _ => false end
  || match apiStatus s with offline => true | _ => false end.

Section Render.

Variable Number_toString : float -> string.

(** [{result.confidence !== null && ( ... )}]: the bar's width is
    [`${result.confidence * 100}%`], the figure beside it
    [(result.confidence * 100).toFixed(1)] followed by [%]. *)
Definition render_confidence (r : PredictionResult) : option ConfidenceView :=
  match confidence r with
  | None => None
  | Some c =>
      Some {| bar_width := Number_toString (c * 100)%float ++ "%";
              score := toFixed Number_toString (c * 100)%float 1 ++ "%" |}
  end.

Definition render_result (r : PredictionResult) : ResultView :=
  {| emotion_shown := toUpperCase (emotion r);
     confidence_section := render_confidence r;
     model_shown := replace_underscores (model_used r);
     time_shown := toFixed Number_toString (processing_time_ms r) 0 ++ "ms" |}.

Definition render (s : State) : View :=
  {| select_disabled := (List.length (models s) =? 0)%nat;
     file_label :=
       match audioFile s with
       | Some f => name f
       | None => "Drag & drop or click to upload"
       end;
     submit_disabled := submitDisabled s;
     error_box := if truthy (error s) then Some (error s) else None;
     result_box := option_map render_result (result s) |}.

End Render.

(** The page as a machine driven by what the user and the network do.  The
    requests that were sent and have not settled yet are kept beside the
    React state. *)
Inductive Event : Type :=
| HealthChecked (reachable : bool)
| ModelsFetched (answer : option (list string))
| ModelSelected (v : string)
| FileChosen (files : option (list File))
| DragEntered
| DragLeft
| FileDropped (files : option (list File))
| ChorusStartTyped (v : string)
| ChorusEndTyped (v : string)
| FormSubmitted
| RequestSettled (o : AxiosOutcome).

Record App : Type := mkApp {
  ui : State;
  in_flight : list FormData
}.

Definition start : App := {| ui := initial; in_flight := [] |}.

(** One event.  [None] says the event cannot happen in that state: the form
    cannot be submitted through a disabled button, and nothing settles when
    no request is out. *)
Definition step (a : App) (e : Event) : option App :=
  let same_requests s := Some {| ui := s; in_flight := in_flight a |} in
  match e with
  | HealthChecked reachable => same_requests (checkApiHealth reachable (ui a))
  | ModelsFetched answer => same_requests (fetchModels answer (ui a))
  | ModelSelected v => same_requests (setSelectedModel v (ui a))
  | FileChosen files => same_requests (handleFileChange files (ui a))
  | DragEntered => same_requests (handleDragEnter (ui a))
  | DragLeft => same_requests (handleDragLeave (ui a))
  | FileDropped files => same_requests (handleDrop files (ui a))
  | ChorusStartTyped v => same_requests (setChorusStart v (ui a))
  | ChorusEndTyped v => same_requests (setChorusEnd v (ui a))
  | FormSubmitted =>
      if submitDisabled (ui a) then None
      else
        match handleSubmit_send (ui a) with
        | (s, Some formData) =>
            Some {| ui := s; in_flight := (in_flight a ++ [formData])%list |}
        | (s, None) => same_requests s
        end
  | RequestSettled o =>
      match in_flight a with
      | [] => None
      | _ :: rest =>
          Some {| ui := handleSubmit_settle o (ui a); in_flight := rest |}
      end
  end.

Fixpoint run (a : App) (events : list Event) : option App :=
  match events with
  | [] => Some a
  | e :: rest =>
      match step a e with
      | Some a' => run a' rest
      | None => None
      end
  end.

(** The keys of the [colors] table of [getEmotionColor] (and of the
    [gradients] table of [getEmotionGradient]), in source order. *)
Definition emotion_names : list string :=
  ["happy"; "sad"; "angry"; "neutral"; "fear"; "disgust"; "surprise"].

(** What [table[key] || fallback] evaluates to for an object literal
    [table] of class names.  An own property wins; a key the literal does not
    have is looked up along the prototype chain, where the members of
    [Object.prototype] are functions or objects, all truthy; only a key found
    nowhere gives the fallback. *)
Inductive ClassValue : Type :=
| ClassName (s : string)
| Inherited (member : string).

Definition object_prototype_members : list string :=
  ["constructor"; "__defineGetter__"; "__defineSetter__"; "hasOwnProperty";
   "__lookupGetter__"; "__lookupSetter__"; "isPrototypeOf";
   "propertyIsEnumerable"; "toString"; "valueOf"; "__proto__"; "toLocaleString"].

Fixpoint own_property (key : string) (table : list (string * string)) : option string :=
  match table with
  | [] => None
  | (k, v) :: rest => if String.eqb k key then Some v else own_property key rest
  end.

Definition lookup_or (table : list (string * string)) (key fallback : string) : ClassValue :=
  match own_property key table with
  | Some v => if truthy v then ClassName v else ClassName fallback
  | None =>
      if existsb (String.eqb key) object_prototype_members
      then Inherited key
      else ClassName fallback
  end.

(** The [colors] table of [getEmotionColor]. *)
Definition colors : list (string * string) :=
  [("happy", "text-yellow-400"); ("sad", "text-blue-400"); ("angry", "text-red-400");
   ("neutral", "text-gray-400"); ("fear", "text-purple-400");
   ("disgust", "text-green-400"); ("surprise", "text-pink-400")].

(** [getEmotionColor]: [colors[emotion.toLowerCase()] || "text-white"] *)
Definition getEmotionColor (emotion : string) : ClassValue :=
  lookup_or colors (toLowerCase emotion) "text-white".

(** The [gradients] table of [getEmotionGradient]. *)
Definition gradients : list (string * string) :=
  [("happy", "from-yellow-500/20 to-orange-500/20");
   ("sad", "from-blue-500/20 to-cyan-500/20");
   ("angry", "from-red-500/20 to-pink-500/20");
   ("neutral", "from-gray-500/20 to-slate-500/20");
   ("fear", "from-purple-500/20 to-indigo-500/20");
   ("disgust", "from-green-500/20 to-emerald-500/20");
   ("surprise", "from-pink-500/20 to-rose-500/20")].

(** [getEmotionGradient]:
    [gradients[emotion.toLowerCase()] || "from-purple-500/20 to-pink-500/20"] *)
Definition getEmotionGradient (emotion : string) : ClassValue :=
  lookup_or gradients (toLowerCase emotion) "from-purple-500/20 to-pink-500/20".

End Frontend.

(* ================================================================== *)
(** ** Vocabulary of the statements *)
(* ================================================================== *)

Module Vocabulary.

(** [s] ends in [suffix]: some prefix followed by [suffix] is [s]. *)
Definition ends_in (s suffix : string) : Prop :=
  exists stem : string, s = stem ++ suffix.

(** Every spelling of an ASCII-lowercase string [s] that differs from it
    only in the case of its letters. *)
Fixpoint case_variants (s : string) : list string :=
  match s with
  | EmptyString => [EmptyString]
  | String c rest =>
      (map (String c) (case_variants rest)
       ++ map (String (JS.upper_char c)) (case_variants rest))%list
  end.

(** A file name that, lowercased, ends in one of the two audio extensions. *)
Definition audio_extension (n : string) : Prop :=
  ends_in (JS.toLowerCase n) ".mp3" \/ ends_in (JS.toLowerCase n) ".wav".

(** While a request is out, the page is loading and shows no result; and
    at most one request is out. *)
Definition one_request_out (a : Frontend.App) : Prop :=
  (List.length (Frontend.in_flight a) <= 1)%nat
  /\ (Frontend.in_flight a <> [] ->
      Frontend.isLoading (Frontend.ui a) = true
      /\ Frontend.result (Frontend.ui a) = None).

(** Fixtures for the worked instances: a WAV upload with a model chosen, and
    a service that refuses every request without a body. *)
Definition track_wav : Frontend.File := Frontend.mkFile "track.WAV" [].

Definition ready : Frontend.State :=
  Frontend.setSelectedModel "KNN" (Frontend.setAudioFile (Some track_wav) Frontend.initial).

Definition refuse_all (fd : Frontend.FormData) : Frontend.AxiosOutcome :=
  Frontend.Rejected (Frontend.mkAxiosError None).

(** The stored upload, if any, passed the name test. *)
Definition audio_stored (s : Frontend.State) : Prop :=
  forall f, Frontend.audioFile s = Some f -> Frontend.is_audio_name (Frontend.name f) = true.

(** A request as the service expects it: no key twice, only the four known
    keys, an audio-named file under [file] and a non-empty [model_name]. *)
Definition sound_request (fd : Frontend.FormData) : Prop :=
  NoDup (map fst fd)
  /\ incl (map fst fd) ["file"; "model_name"; "chorus_start"; "chorus_end"]
  /\ (exists f, Frontend.get "file" fd = Some (Frontend.FileValue f)
                /\ Frontend.is_audio_name (Frontend.name f) = true)
  /\ (exists m, Frontend.get "model_name" fd = Some (Frontend.TextValue m) /\ m <> "").

(** No successful health check among the events. *)
Definition never_reachable (events : list Frontend.Event) : Prop :=
  ~ In (Frontend.HealthChecked true) events.

End Vocabulary.

(* ================================================================== *)
(** ** Properties of the upload form *)
(* ================================================================== *)

Section StringFacts.

Import JS Vocabulary.

Lemma length_append (a b : string) :
  String.length (a ++ b) = (String.length a + String.length b)%nat.
Proof. induction a as [|c a IH]; simpl; [reflexivity | now rewrite IH]. Qed.

Lemma substring_whole (s : string) : substring 0 (String.length s) s = s.
Proof. induction s as [|c s IH]; simpl; [reflexivity | now rewrite IH]. Qed.

Lemma substring_skip_prefix (stem s : string) (n : nat) :
  substring (String.length stem) n (stem ++ s) = substring 0 n s.
Proof. induction stem as [|c stem IH]; simpl; [reflexivity | exact IH]. Qed.

Lemma substring_split (s : string) (n : nat) :
  (n <= String.length s)%nat ->
  s = substring 0 n s ++ substring n (String.length s - n) s.
Proof.
  revert n; induction s as [|c s IH]; intros n Hn.
  - destruct n; simpl in *; [reflexivity | lia].
  - destruct n as [|n]; simpl.
    + now rewrite substring_whole.
    + simpl in Hn. f_equal. apply IH. lia.
Qed.

Lemma endsWith_append (stem suffix : string) :
  endsWith (stem ++ suffix) suffix = true.
Proof.
  unfold endsWith. rewrite length_append.
  replace (_ <? _)%nat with false by (symmetry; apply Nat.ltb_ge; lia).
  replace (String.length stem + String.length suffix - String.length suffix)%nat
    with (String.length stem) by lia.
  rewrite substring_skip_prefix, substring_whole. apply String.eqb_refl.
Qed.

Lemma endsWith_ends_in (s suffix : string) :
  endsWith s suffix = true <-> ends_in s suffix.
Proof.
  split.
  - unfold endsWith. destruct (Nat.ltb_spec (String.length s) (String.length suffix)) as [|Hle];
      [discriminate|].
    intros H. apply String.eqb_eq in H.
    exists (substring 0 (String.length s - String.length suffix) s).
    pose proof (substring_split s (String.length s - String.length suffix)) as E.
    replace (String.length s - (String.length s - String.length suffix))%nat
      with (String.length suffix) in E by lia.
    rewrite H in E. apply E. lia.
  - intros [stem ->]. apply endsWith_append.
Qed.

Lemma toLowerCase_append (a b : string) :
  toLowerCase (a ++ b) = toLowerCase a ++ toLowerCase b.
Proof. induction a as [|c a IH]; simpl; [reflexivity | now rewrite IH]. Qed.

Lemma truthy_nonempty (s : string) : truthy s = true <-> s <> "".
Proof. destruct s; simpl; split; intros; congruence. Qed.

Lemma truthy_empty (s : string) : truthy s = false <-> s = "".
Proof. destruct s; simpl; split; intros; congruence. Qed.

End StringFacts.

Section FileHandlers.

Import JS Frontend Vocabulary.

Lemma is_audio_name_spec (n : string) :
  is_audio_name n = true <->
  ends_in (toLowerCase n) ".mp3" \/ ends_in (toLowerCase n) ".wav".
Proof.
  unfold is_audio_name. rewrite orb_true_iff, !endsWith_ends_in. reflexivity.
Qed.

Lemma take_file_accepts (file : File) (s : State) :
  is_audio_name (name file) = true ->
  audioFile (take_file file s) = Some file /\ error (take_file file s) = "".
Proof. unfold take_file; intros ->; split; reflexivity. Qed.

Lemma take_file_rejects (file : File) (s : State) :
  is_audio_name (name file) = false ->
  audioFile (take_file file s) = None
  /\ error (take_file file s) = "Please upload a valid MP3 or WAV file".
Proof. unfold take_file; intros ->; split; reflexivity. Qed.

Lemma take_file_stores_iff (file : File) (s : State) :
  audioFile (take_file file s) = Some file <-> is_audio_name (name file) = true.
Proof.
  unfold take_file. destruct (is_audio_name (name file)); simpl; split; congruence.
Qed.

Lemma lower_upper_char (c : ascii) : lower_char (upper_char c) = lower_char c.
Proof. destruct c as [[] [] [] [] [] [] [] []]; reflexivity. Qed.

Lemma case_variants_lower (s e : string) :
  In e (case_variants s) -> toLowerCase e = toLowerCase s.
Proof.
  revert e; induction s as [|c s IH]; intros e H; simpl in H.
  - destruct H as [<- | []]. reflexivity.
  - apply in_app_or in H. destruct H as [H | H];
      apply in_map_iff in H; destruct H as [e' [<- He']]; simpl;
      rewrite (IH _ He'); [reflexivity | now rewrite lower_upper_char].
Qed.

(** C2: for the first file of a selection or of a drop, the file is stored
    as the audio input exactly when its lowercased name ends in [.mp3] or
    [.wav]; an accepted file is stored and the error cleared, any other file
    sets the stored file to null and the error to the unsupported-format
    message. *)
Theorem file_accepted_iff_audio_extension :
  forall (file : File) (others : list File) (s : State),
    (audioFile (handleFileChange (Some (file :: others)) s) = Some file
       <-> audio_extension (name file))
    /\ (audioFile (handleDrop (Some (file :: others)) s) = Some file
       <-> audio_extension (name file))
    /\ (audio_extension (name file) ->
        audioFile (handleFileChange (Some (file :: others)) s) = Some file
        /\ error (handleFileChange (Some (file :: others)) s) = ""
        /\ audioFile (handleDrop (Some (file :: others)) s) = Some file
        /\ error (handleDrop (Some (file :: others)) s) = "")
    /\ (~ audio_extension (name file) ->
        audioFile (handleFileChange (Some (file :: others)) s) = None
        /\ error (handleFileChange (Some (file :: others)) s)
             = "Please upload a valid MP3 or WAV file"
        /\ audioFile (handleDrop (Some (file :: others)) s) = None
        /\ error (handleDrop (Some (file :: others)) s)
             = "Please upload a valid MP3 or WAV file").
Proof.
  intros file others s. unfold audio_extension.
  rewrite <- is_audio_name_spec. simpl handleFileChange. simpl handleDrop.
  repeat split.
  - apply take_file_stores_iff.
  - apply take_file_stores_iff.
  - apply take_file_stores_iff.
  - apply take_file_stores_iff.
  - now apply take_file_accepts.
  - now apply take_file_accepts.
  - now apply take_file_accepts.
  - now apply take_file_accepts.
  - apply take_file_rejects. now destruct (is_audio_name (name file)).
  - apply take_file_rejects. now destruct (is_audio_name (name file)).
  - apply take_file_rejects. now destruct (is_audio_name (name file)).
  - apply take_file_rejects. now destruct (is_audio_name (name file)).
Qed.

Lemma file_accepted_iff_audio_extension_witness :
  audio_extension (name track_wav)
  /\ audioFile (handleFileChange (Some [track_wav]) initial) = Some track_wav
  /\ error (handleFileChange (Some [track_wav]) initial) = ""
  /\ audioFile (handleDrop (Some [track_wav]) initial) = Some track_wav
  /\ error (handleDrop (Some [track_wav]) initial) = "".
Proof.
  assert (H : audio_extension (name track_wav)).
  { right. exists "track". reflexivity. }
  split; [exact H|].
  exact (proj1 (proj2 (proj2 (file_accepted_iff_audio_extension track_wav [] initial))) H).
Defined.

(** C9: the format test ignores the case of the extension: a file whose name
    ends in any case variant of [.mp3] or [.wav] is accepted by both
    handlers. *)
Theorem audio_extension_case_insensitive :
  forall (stem ext : string) (bytes : list Byte.byte) (others : list File) (s : State),
    In ext (case_variants ".mp3") \/ In ext (case_variants ".wav") ->
    is_audio_name (stem ++ ext) = true
    /\ audioFile (handleFileChange (Some (mkFile (stem ++ ext) bytes :: others)) s)
         = Some (mkFile (stem ++ ext) bytes)
    /\ audioFile (handleDrop (Some (mkFile (stem ++ ext) bytes :: others)) s)
         = Some (mkFile (stem ++ ext) bytes).
Proof.
  intros stem ext bytes others s H.
  assert (Hname : is_audio_name (stem ++ ext) = true).
  { apply is_audio_name_spec. rewrite toLowerCase_append.
    destruct H as [H | H]; apply case_variants_lower in H; rewrite H;
      [left | right]; exists (toLowerCase stem); reflexivity. }
  split; [exact Hname|].
  split; apply take_file_stores_iff; exact Hname.
Qed.

Lemma audio_extension_case_insensitive_witness :
  (In ".MP3" (case_variants ".mp3") \/ In ".MP3" (case_variants ".wav"))
  /\ is_audio_name ("SONG" ++ ".MP3") = true
  /\ audioFile (handleFileChange (Some [mkFile ("SONG" ++ ".MP3") []]) initial)
       = Some (mkFile ("SONG" ++ ".MP3") [])
  /\ audioFile (handleDrop (Some [mkFile ("SONG" ++ ".MP3") []]) initial)
       = Some (mkFile ("SONG" ++ ".MP3") []).
Proof.
  assert (H : In ".MP3" (case_variants ".mp3") \/ In ".MP3" (case_variants ".wav")).
  { left. simpl. repeat (first [left; reflexivity | right]). }
  split; [exact H|].
  exact (audio_extension_case_insensitive "SONG" ".MP3" [] [] initial H).
Defined.

(** The handlers on a few names. *)
Example track_wav_accepted :
  audioFile (handleFileChange (Some [track_wav]) initial) = Some track_wav.
Proof. reflexivity. Qed.

Example text_file_rejected :
  handleDrop (Some [mkFile "notes.txt" []]) (setAudioFile (Some track_wav) initial)
  = setError "Please upload a valid MP3 or WAV file" initial.
Proof. reflexivity. Qed.

Example bare_extension_word_rejected :
  is_audio_name "mp3" = false /\ is_audio_name "song.mp3.bak" = false
  /\ is_audio_name ".wav" = true.
Proof. repeat split. Qed.

Example empty_selection_ignored (s : State) :
  handleFileChange None s = s /\ handleFileChange (Some []) s = s.
Proof. split; reflexivity. Qed.

End FileHandlers.

Section Submission.

Import JS Frontend Vocabulary.

Lemma errorMessage_nonempty (err : AxiosError) : errorMessage err <> "".
Proof.
  unfold errorMessage. destruct (detail_of err) as [d|]; [|discriminate].
  destruct d; simpl; discriminate.
Qed.

Lemma handleSubmit_send_sent (s s' : State) (fd : FormData) :
  handleSubmit_send s = (s', Some fd) ->
  isLoading s' = true /\ result s' = None /\ error s' = ""
  /\ exists file, audioFile s = Some file /\ truthy (selectedModel s) = true.
Proof.
  unfold handleSubmit_send. destruct (audioFile s) as [file|]; [|discriminate].
  destruct (truthy (selectedModel s)); simpl; [|discriminate].
  intros H; injection H as <- _. repeat split. now exists file.
Qed.

Lemma handleSubmit_send_unsent (s s' : State) :
  handleSubmit_send s = (s', None) ->
  result s' = result s /\ isLoading s' = isLoading s /\ error s' <> "".
Proof.
  unfold handleSubmit_send. destruct (audioFile s) as [file|].
  - destruct (truthy (selectedModel s)); simpl; [discriminate|].
    intros H; injection H as <-. repeat split. discriminate.
  - intros H; injection H as <-. repeat split. discriminate.
Qed.

Lemma settle_rejected (err : AxiosError) (s : State) :
  result (handleSubmit_settle (Rejected err) s) = result s
  /\ error (handleSubmit_settle (Rejected err) s) = errorMessage err
  /\ isLoading (handleSubmit_settle (Rejected err) s) = false.
Proof. repeat split. Qed.

Lemma settle_resolved (d : PredictionResult) (s : State) :
  result (handleSubmit_settle (Resolved d) s) = Some d
  /\ error (handleSubmit_settle (Resolved d) s) = error s
  /\ isLoading (handleSubmit_settle (Resolved d) s) = false.
Proof. repeat split. Qed.

(** The handlers that neither send nor settle a request leave [result] and
    [isLoading] alone. *)
Lemma take_file_keeps (file : File) (s : State) :
  result (take_file file s) = result s /\ isLoading (take_file file s) = isLoading s.
Proof. unfold take_file. destruct (is_audio_name (name file)); split; reflexivity. Qed.

Lemma step_keeps_or_settles (a a' : App) (e : Event) :
  step a e = Some a' ->
  (result (ui a') = result (ui a) /\ isLoading (ui a') = isLoading (ui a)
   /\ in_flight a' = in_flight a)
  \/ (exists fd, e = FormSubmitted /\ isLoading (ui a) = false
       /\ handleSubmit_send (ui a) = (ui a', Some fd)
       /\ in_flight a' = (in_flight a ++ [fd])%list)
  \/ (exists o fd, e = RequestSettled o /\ in_flight a = fd :: in_flight a'
       /\ ui a' = handleSubmit_settle o (ui a)).
Proof.
  destruct e; simpl; intros H.
  - injection H as <-. left. simpl. destruct reachable; repeat split.
  - injection H as <-. left. simpl. destruct answer as [[|m ms]|]; repeat split.
  - injection H as <-. left. repeat split.
  - injection H as <-. left. simpl.
    destruct files as [[|file files]|]; simpl; try (repeat split; fail).
    destruct (take_file_keeps file (ui a)) as [-> ->]. repeat split.
  - injection H as <-. left. repeat split.
  - injection H as <-. left. repeat split.
  - injection H as <-. left. simpl.
    destruct files as [[|file files]|]; simpl; try (repeat split; fail).
    destruct (take_file_keeps file (setIsDragging false (ui a))) as [-> ->]. repeat split.
  - injection H as <-. left. repeat split.
  - injection H as <-. left. repeat split.
  - destruct (submitDisabled (ui a)) eqn:Hdis; [discriminate|].
    assert (Hload : isLoading (ui a) = false).
    { unfold submitDisabled in Hdis. destruct (isLoading (ui a)); [discriminate|reflexivity]. }
    destruct (handleSubmit_send (ui a)) as [s [fd|]] eqn:Hsend; injection H as <-.
    + right; left. exists fd. repeat split; assumption.
    + left. simpl. apply handleSubmit_send_unsent in Hsend.
      destruct Hsend as (-> & -> & _). repeat split.
  - destruct (in_flight a) as [|fd rest] eqn:Hfl; [discriminate|].
    injection H as <-. right; right. exists o, fd. repeat split.
Qed.

Lemma step_one_request_out (a a' : App) (e : Event) :
  one_request_out a -> step a e = Some a' -> one_request_out a'.
Proof.
  intros [Hlen Hout] H.
  destruct (step_keeps_or_settles _ _ _ H)
    as [(Hr & Hl & Hf) | [(fd & -> & Hload & Hsend & Hf) | (o & fd & -> & Hf & Hui)]].
  - unfold one_request_out. rewrite Hr, Hl, Hf. split; assumption.
  - assert (Hnil : in_flight a = []).
    { destruct (in_flight a) as [|x l] eqn:E; [reflexivity|].
      destruct Hout as [Ht _]; [discriminate|]. congruence. }
    apply handleSubmit_send_sent in Hsend. destruct Hsend as (Hl & Hr & _).
    unfold one_request_out. rewrite Hf, Hnil. simpl. split; [lia|]. intros _. now split.
  - rewrite Hf in Hlen. simpl in Hlen.
    assert (Hnil : in_flight a' = []) by (destruct (in_flight a'); [reflexivity | simpl in Hlen; lia]).
    unfold one_request_out. rewrite Hnil. simpl. split; [lia|]. intros C; now elim C.
Qed.

Lemma run_one_request_out (events : list Event) (a a' : App) :
  one_request_out a -> run a events = Some a' -> one_request_out a'.
Proof.
  revert a; induction events as [|e events IH]; simpl; intros a Ha H.
  - now injection H as <-.
  - destruct (step a e) as [a1|] eqn:Hstep; [|discriminate].
    eapply IH; [|exact H]. eapply step_one_request_out; eassumption.
Qed.

Lemma start_one_request_out : one_request_out start.
Proof. split; simpl; [lia | intros C; now elim C]. Qed.

Lemma run_result_origin (events : list Event) (a a' : App) (r : PredictionResult) :
  run a events = Some a' ->
  result (ui a') = Some r ->
  result (ui a) = Some r \/ In (RequestSettled (Resolved r)) events.
Proof.
  revert a; induction events as [|e events IH]; simpl; intros a H Hr.
  - injection H as <-. now left.
  - destruct (step a e) as [a1|] eqn:Hstep; [|discriminate].
    destruct (IH _ H Hr) as [H1 | Hin]; [|right; now right].
    destruct (step_keeps_or_settles _ _ _ Hstep)
      as [(Hres & _) | [(fd & -> & _ & Hsend & _) | (o & fd & -> & _ & Hui)]].
    + left. congruence.
    + apply handleSubmit_send_sent in Hsend. destruct Hsend as (_ & Hnone & _). congruence.
    + rewrite Hui in H1. destruct o as [d | err].
      * right; left. simpl in H1. congruence.
      * left. exact H1.
Qed.

(** C6: a failed prediction leaves no result behind.  A run of
    [handleSubmit] whose request is rejected ends with [result] null and a
    non-empty error; the same holds in every reachable state of the page when
    a request settles as rejected, whatever else the user did meanwhile; and a
    result on the page was delivered by a request that resolved.  (A run that
    stops at one of the two validation returns sends nothing and leaves the
    earlier [result] as it was.) *)
Theorem no_result_after_failed_request :
  (forall (post : FormData -> AxiosOutcome) (s s' : State) (fd : FormData)
          (err : AxiosError),
      handleSubmit_send s = (s', Some fd) ->
      post fd = Rejected err ->
      result (handleSubmit post s) = None
      /\ error (handleSubmit post s) <> ""
      /\ isLoading (handleSubmit post s) = false)
  /\ (forall (events : list Event) (a a' : App) (err : AxiosError),
      run start events = Some a ->
      step a (RequestSettled (Rejected err)) = Some a' ->
      result (ui a') = None /\ error (ui a') <> "")
  /\ (forall (events : list Event) (a : App) (r : PredictionResult),
      run start events = Some a ->
      result (ui a) = Some r ->
      In (RequestSettled (Resolved r)) events)
  /\ (forall (post : FormData -> AxiosOutcome) (s : State) (r : PredictionResult),
      result (handleSubmit post s) = Some r ->
      (exists fd, snd (handleSubmit_send s) = Some fd /\ post fd = Resolved r)
      \/ (snd (handleSubmit_send s) = None /\ result s = Some r)).
Proof.
  repeat apply conj.
  - intros post s s' fd err Hsend Hpost. unfold handleSubmit. rewrite Hsend, Hpost.
    apply handleSubmit_send_sent in Hsend. destruct Hsend as (_ & Hnone & _).
    destruct (settle_rejected err s') as (-> & -> & ->).
    repeat split; [exact Hnone | apply errorMessage_nonempty].
  - intros events a a' err Hrun Hstep.
    pose proof (run_one_request_out _ _ _ start_one_request_out Hrun) as [_ Hout].
    simpl in Hstep. destruct (in_flight a) as [|fd rest] eqn:Hfl; [discriminate|].
    injection Hstep as <-. simpl.
    destruct Hout as [_ Hnone]; [discriminate|].
    split; [exact Hnone | apply errorMessage_nonempty].
  - intros events a r Hrun Hres.
    destruct (run_result_origin _ _ _ _ Hrun Hres) as [H | H]; [discriminate | exact H].
  - intros post s r. unfold handleSubmit.
    destruct (handleSubmit_send s) as [s' [fd|]] eqn:Hsend; simpl; intros H.
    + left. exists fd. split; [reflexivity|].
      apply handleSubmit_send_sent in Hsend. destruct Hsend as (_ & Hnone & _).
      destruct (post fd) as [d | err]; simpl in H; congruence.
    + right. split; [reflexivity|].
      apply handleSubmit_send_unsent in Hsend. destruct Hsend as (<- & _). exact H.
Qed.

Lemma no_result_after_failed_request_witness :
  result (handleSubmit refuse_all ready) = None
  /\ error (handleSubmit refuse_all ready) <> ""
  /\ isLoading (handleSubmit refuse_all ready) = false.
Proof.
  exact (proj1 no_result_after_failed_request refuse_all ready
           (fst (handleSubmit_send ready))
           [("file", FileValue track_wav); ("model_name", TextValue "KNN")]
           (mkAxiosError None) eq_refl eq_refl).
Defined.

Lemma has_append (key k : string) (v : FormValue) (fd : FormData) :
  has key (append k v fd) = has key fd || String.eqb k key.
Proof.
  unfold has, append. rewrite existsb_app. simpl. now rewrite orb_false_r.
Qed.

Lemma get_append_fresh (key : string) (v : FormValue) (fd : FormData) :
  has key fd = false -> get key (append key v fd) = Some v.
Proof.
  unfold append. induction fd as [|[k x] fd IH]; simpl.
  - now rewrite String.eqb_refl.
  - destruct (String.eqb k key); simpl; [discriminate | exact IH].
Qed.

Lemma get_append_other (key k : string) (v : FormValue) (fd : FormData) :
  String.eqb k key = false -> get key (append k v fd) = get key fd.
Proof.
  intros Hk. unfold append. induction fd as [|[k' x] fd IH]; simpl.
  - now rewrite Hk.
  - destruct (String.eqb k' key); [reflexivity | exact IH].
Qed.

(** C10: each chorus bound goes into the request exactly when its own field
    is a non-empty string, with the field's text as its value; so requests
    with only [chorus_start], or only [chorus_end], are sent, also through
    the page's own event sequence. *)
Theorem chorus_bounds_sent_independently :
  (forall (s : State) (file : File),
      audioFile s = Some file ->
      selectedModel s <> "" ->
      exists fd,
        snd (handleSubmit_send s) = Some fd
        /\ (has "chorus_start" fd = true <-> chorusStart s <> "")
        /\ (has "chorus_end" fd = true <-> chorusEnd s <> "")
        /\ (chorusStart s <> "" ->
            get "chorus_start" fd = Some (TextValue (chorusStart s)))
        /\ (chorusEnd s <> "" ->
            get "chorus_end" fd = Some (TextValue (chorusEnd s))))
  /\ (exists (events : list Event) (a : App) (fd : FormData),
        run start events = Some a /\ in_flight a = [fd]
        /\ has "chorus_start" fd = true /\ has "chorus_end" fd = false)
  /\ (exists (events : list Event) (a : App) (fd : FormData),
        run start events = Some a /\ in_flight a = [fd]
        /\ has "chorus_start" fd = false /\ has "chorus_end" fd = true).
Proof.
  repeat apply conj.
  - intros s file Hfile Hmodel. apply truthy_nonempty in Hmodel.
    unfold handleSubmit_send. rewrite Hfile, Hmodel. simpl.
    eexists; split; [reflexivity|].
    destruct (chorusStart s) as [|c1 t1]; destruct (chorusEnd s) as [|c2 t2];
      simpl; rewrite ?has_append; simpl;
      repeat split; intros; try congruence; try discriminate;
      rewrite ?get_append_other by reflexivity;
      try (apply get_append_fresh; rewrite ?has_append; reflexivity).
  - exists [ModelsFetched (Some ["KNN"]); FileChosen (Some [track_wav]);
            ChorusStartTyped "45.5"; FormSubmitted].
    eexists; eexists. repeat split.
  - exists [ModelsFetched (Some ["KNN"]); FileChosen (Some [track_wav]);
            ChorusEndTyped "75.5"; FormSubmitted].
    eexists; eexists. repeat split.
Qed.

Lemma chorus_bounds_sent_independently_witness :
  exists fd,
    snd (handleSubmit_send (setChorusStart "45.5" ready)) = Some fd
    /\ (has "chorus_start" fd = true <-> "45.5" <> "")
    /\ (has "chorus_end" fd = true <-> "" <> "")
    /\ ("45.5" <> "" -> get "chorus_start" fd = Some (TextValue "45.5"))
    /\ ("" <> "" -> get "chorus_end" fd = Some (TextValue "")).
Proof.
  refine (proj1 chorus_bounds_sent_independently (setChorusStart "45.5" ready)
            track_wav eq_refl _).
  discriminate.
Defined.

End Submission.

(* ================================================================== *)
(** ** Further properties of the page *)
(* ================================================================== *)

Section UploadFacts.

Import JS Frontend Vocabulary.

Lemma toLowerCase_length (s : string) :
  String.length (toLowerCase s) = String.length s.
Proof. induction s as [|c s IH]; simpl; [reflexivity | now rewrite IH]. Qed.

Lemma lower_lower_char (c : ascii) : lower_char (lower_char c) = lower_char c.
Proof. destruct c as [[] [] [] [] [] [] [] []]; reflexivity. Qed.

Lemma toLowerCase_toUpperCase (s : string) :
  toLowerCase (toUpperCase s) = toLowerCase s.
Proof.
  induction s as [|c s IH]; simpl; [reflexivity | now rewrite IH, lower_upper_char].
Qed.

Lemma toLowerCase_idempotent (s : string) :
  toLowerCase (toLowerCase s) = toLowerCase s.
Proof.
  induction s as [|c s IH]; simpl; [reflexivity | now rewrite IH, lower_lower_char].
Qed.

Lemma substring_skip_prefix_at (stem s : string) (i n : nat) :
  substring (String.length stem + i) n (stem ++ s) = substring i n s.
Proof. induction stem as [|c stem IH]; simpl; [reflexivity | exact IH]. Qed.

Lemma endsWith_only_tail (stem n ext : string) :
  (String.length ext <= String.length n)%nat ->
  endsWith (stem ++ n) ext = endsWith n ext.
Proof.
  intros Hlen. unfold endsWith. rewrite length_append.
  replace (_ + _ <? _)%nat with false by (symmetry; apply Nat.ltb_ge; lia).
  replace (String.length n <? _)%nat with false by (symmetry; apply Nat.ltb_ge; lia).
  replace (String.length stem + String.length n - String.length ext)%nat
    with (String.length stem + (String.length n - String.length ext))%nat by lia.
  now rewrite substring_skip_prefix_at.
Qed.

Lemma endsWith_length (s ext : string) :
  endsWith s ext = true -> (String.length ext <= String.length s)%nat.
Proof.
  unfold endsWith. destruct (Nat.ltb_spec (String.length s) (String.length ext));
    [discriminate | intros _; assumption].
Qed.

(** X1: the name test looks at the last four characters only, whatever
    their case: an accepted name has at least four characters, characters put
    in front of a name of four or more change nothing, and neither does
    upper- or lower-casing the whole name. *)
Theorem audio_name_by_last_four :
  (forall n, is_audio_name n = true -> (4 <= String.length n)%nat)
  /\ (forall stem n, (4 <= String.length n)%nat ->
        is_audio_name (stem ++ n) = is_audio_name n)
  /\ (forall n, is_audio_name (toUpperCase n) = is_audio_name n
                /\ is_audio_name (toLowerCase n) = is_audio_name n).
Proof.
  repeat apply conj.
  - intros n H. unfold is_audio_name in H. apply orb_true_iff in H.
    destruct H as [H | H]; apply endsWith_length in H;
      rewrite toLowerCase_length in H; exact H.
  - intros stem n Hn. unfold is_audio_name. rewrite toLowerCase_append.
    rewrite !endsWith_only_tail by (rewrite toLowerCase_length; exact Hn).
    reflexivity.
  - intros n. unfold is_audio_name.
    now rewrite toLowerCase_toUpperCase, toLowerCase_idempotent.
Qed.

Lemma audio_name_by_last_four_witness :
  is_audio_name ".Wav" = true /\ (4 <= String.length ".Wav")%nat
  /\ is_audio_name ("my.song" ++ ".Wav") = is_audio_name ".Wav".
Proof.
  split; [reflexivity|]. split.
  - exact (proj1 audio_name_by_last_four ".Wav" eq_refl).
  - refine (proj1 (proj2 audio_name_by_last_four) "my.song" ".Wav" _). simpl. lia.
Defined.


(** X2: a drop is a selection made after the drag flag is cleared: the flag
    is off after every drop, with or without a usable file, and a selection
    through the dialog never touches it. *)
Theorem drop_is_selection_after_drag_leave :
  forall (files : option (list File)) (s : State),
    handleDrop files s = handleFileChange files (handleDragLeave s)
    /\ isDragging (handleDrop files s) = false
    /\ isDragging (handleFileChange files s) = isDragging s
    /\ handleDrop files (handleDragEnter s) = handleDrop files s.
Proof.
  intros files s. repeat apply conj.
  - reflexivity.
  - destruct files as [[|f fs]|]; simpl; try reflexivity.
    unfold take_file. now destruct (is_audio_name (name f)).
  - destruct files as [[|f fs]|]; simpl; try reflexivity.
    unfold take_file. now destruct (is_audio_name (name f)).
  - reflexivity.
Qed.


End UploadFacts.

Section SubmitFacts.

Import JS Frontend Vocabulary.

(** X4: a submission sends no request exactly when no file is stored or no
    model is selected; the file is tested first, so with both missing the
    message is the one about the file; and a submission that sends nothing
    changes nothing but the error. *)
Theorem submit_sends_iff_file_and_model :
  forall (s : State),
    (snd (handleSubmit_send s) = None <-> audioFile s = None \/ selectedModel s = "")
    /\ (audioFile s = None ->
        fst (handleSubmit_send s) = setError "Please select an audio file" s)
    /\ (audioFile s <> None -> selectedModel s = "" ->
        fst (handleSubmit_send s) = setError "Please select a model" s)
    /\ (forall post, snd (handleSubmit_send s) = None ->
        handleSubmit post s = fst (handleSubmit_send s)).
Proof.
  intros s. unfold handleSubmit, handleSubmit_send.
  destruct (audioFile s) as [f|]; [|repeat split; auto; congruence].
  destruct (selectedModel s) as [|c m]; simpl.
  - repeat split; auto; congruence.
  - repeat split; try congruence; try discriminate.
    intros [H | H]; discriminate.
Qed.

Lemma submit_sends_iff_file_and_model_witness :
  audioFile initial = None
  /\ fst (handleSubmit_send initial) = setError "Please select an audio file" initial.
Proof.
  split; [reflexivity|].
  exact (proj1 (proj2 (submit_sends_iff_file_and_model initial)) eq_refl).
Defined.

(** X5: through the page the file guard of [handleSubmit] never fires: the
    submit button is disabled without a file, so a submission that the page
    lets through either sends a request, leaving the page loading with error
    and result cleared, or stops at the model guard. *)
Theorem page_submission_outcomes :
  forall (a a' : App),
    step a FormSubmitted = Some a' ->
    (exists fd, in_flight a' = (in_flight a ++ [fd])%list
                /\ isLoading (ui a') = true /\ error (ui a') = ""
                /\ result (ui a') = None)
    \/ (in_flight a' = in_flight a
        /\ selectedModel (ui a) = ""
        /\ ui a' = setError "Please select a model" (ui a)).
Proof.
  intros a a'. simpl.
  destruct (submitDisabled (ui a)) eqn:Hdis; [discriminate|].
  unfold submitDisabled in Hdis. apply orb_false_iff in Hdis. destruct Hdis as [Hdis _].
  apply orb_false_iff in Hdis. destruct Hdis as [_ Hfile].
  unfold handleSubmit_send. destruct (audioFile (ui a)) as [f|]; [|discriminate].
  destruct (selectedModel (ui a)) as [|c m]; simpl; intros H; injection H as <-.
  - right. repeat split.
  - left. eexists. repeat split.
Qed.

Lemma page_submission_outcomes_witness :
  (exists fd, in_flight (mkApp (fst (handleSubmit_send ready))
                               [[("file", FileValue track_wav);
                                 ("model_name", TextValue "KNN")]])
              = (in_flight (mkApp ready []) ++ [fd])%list
              /\ isLoading (fst (handleSubmit_send ready)) = true
              /\ error (fst (handleSubmit_send ready)) = ""
              /\ result (fst (handleSubmit_send ready)) = None)
  \/ ([[("file", FileValue track_wav); ("model_name", TextValue "KNN")]] = []
      /\ selectedModel ready = ""
      /\ fst (handleSubmit_send ready) = setError "Please select a model" ready).
Proof.
  exact (page_submission_outcomes (mkApp ready [])
           (mkApp (fst (handleSubmit_send ready))
                  [[("file", FileValue track_wav); ("model_name", TextValue "KNN")]])
           eq_refl).
Defined.

Lemma take_file_audio_stored (file : File) (s : State) :
  audio_stored (take_file file s).
Proof.
  unfold take_file, audio_stored. destruct (is_audio_name (name file)) eqn:E; simpl.
  - intros f H. injection H as <-. exact E.
  - discriminate.
Qed.

Lemma step_audio_stored (a a' : App) (e : Event) :
  audio_stored (ui a) -> step a e = Some a' -> audio_stored (ui a').
Proof.
  intros Ha. destruct e; simpl; intros H.
  - injection H as <-. simpl. destruct reachable; exact Ha.
  - injection H as <-. simpl. destruct answer as [[|m ms]|]; exact Ha.
  - injection H as <-. exact Ha.
  - injection H as <-. simpl. destruct files as [[|f fs]|]; simpl;
      [exact Ha | apply take_file_audio_stored | exact Ha].
  - injection H as <-. exact Ha.
  - injection H as <-. exact Ha.
  - injection H as <-. simpl. destruct files as [[|f fs]|]; simpl;
      [exact Ha | apply take_file_audio_stored | exact Ha].
  - injection H as <-. exact Ha.
  - injection H as <-. exact Ha.
  - destruct (submitDisabled (ui a)); [discriminate|].
    unfold handleSubmit_send in H.
    destruct (audioFile (ui a)) as [f|] eqn:Hf.
    + destruct (truthy (selectedModel (ui a))); simpl in H; injection H as <-;
        simpl; unfold audio_stored; simpl; rewrite Hf; intros f' Hf';
        apply Ha; now rewrite Hf.
    + injection H as <-. simpl. unfold audio_stored. simpl. rewrite Hf. discriminate.
  - destruct (in_flight a); [discriminate|]. injection H as <-. simpl.
    destruct o; exact Ha.
Qed.

Lemma sent_request_sound (s s' : State) (fd : FormData) :
  audio_stored s -> handleSubmit_send s = (s', Some fd) -> sound_request fd.
Proof.
  intros Ha. unfold handleSubmit_send.
  destruct (audioFile s) as [f|] eqn:Hf; [|discriminate].
  destruct (selectedModel s) as [|c m] eqn:Hm; simpl; [discriminate|].
  intros H; injection H as _ <-.
  specialize (Ha f Hf).
  destruct (truthy (chorusStart s)); destruct (truthy (chorusEnd s)); simpl;
    (split; [repeat constructor; simpl; intuition discriminate|]);
    (split; [intros k Hk; simpl in *; tauto|]);
    (split; [exists f; split; [reflexivity | exact Ha]
            | eexists; split; [reflexivity | discriminate]]).
Qed.

Lemma run_sound_requests (events : list Event) (a a' : App) :
  audio_stored (ui a) -> Forall sound_request (in_flight a) ->
  run a events = Some a' ->
  audio_stored (ui a') /\ Forall sound_request (in_flight a').
Proof.
  revert a; induction events as [|e events IH]; simpl; intros a Ha Hreq H.
  - injection H as <-. now split.
  - destruct (step a e) as [a1|] eqn:Hstep; [|discriminate].
    apply (IH a1); [eapply step_audio_stored; eassumption | | exact H].
    destruct (step_keeps_or_settles _ _ _ Hstep)
      as [(_ & _ & Hf) | [(fd & _ & _ & Hsend & Hf) | (o & fd & _ & Hf & _)]].
    + now rewrite Hf.
    + rewrite Hf. apply Forall_app. split; [exact Hreq|].
      constructor; [|constructor]. eapply sent_request_sound; eassumption.
    + rewrite Hf in Hreq. now inversion Hreq.
Qed.

(** X6: whatever the user does, the file kept by the page has passed the
    name test, and every request the page has out names each key once, uses
    only the keys [file], [model_name], [chorus_start] and [chorus_end], and
    carries an audio-named file and a non-empty model name. *)
Theorem page_sends_only_sound_requests :
  forall (events : list Event) (a : App),
    run start events = Some a ->
    audio_stored (ui a) /\ Forall sound_request (in_flight a).
Proof.
  intros events a H. apply (run_sound_requests events start a); [| constructor | exact H].
  unfold audio_stored. simpl. discriminate.
Qed.

Lemma page_sends_only_sound_requests_witness :
  exists a,
    run start [ModelsFetched (Some ["KNN"]); FileChosen (Some [track_wav]);
               ChorusEndTyped "75.5"; FormSubmitted] = Some a
    /\ List.length (in_flight a) = 1%nat
    /\ audio_stored (ui a) /\ Forall sound_request (in_flight a).
Proof.
  eexists. split; [reflexivity|]. split; [reflexivity|].
  exact (page_sends_only_sound_requests
           [ModelsFetched (Some ["KNN"]); FileChosen (Some [track_wav]);
            ChorusEndTyped "75.5"; FormSubmitted] _ eq_refl).
Defined.

End SubmitFacts.

Section PageInvariants.

Import JS Frontend Vocabulary.

Lemma step_idle_not_loading (a a' : App) (e : Event) :
  (in_flight a = [] -> isLoading (ui a) = false) ->
  step a e = Some a' ->
  in_flight a' = [] -> isLoading (ui a') = false.
Proof.
  intros Hidle Hstep Hnil.
  destruct (step_keeps_or_settles _ _ _ Hstep)
    as [(_ & Hl & Hf) | [(fd & _ & _ & _ & Hf) | (o & fd & _ & _ & Hui)]].
  - rewrite Hl. apply Hidle. now rewrite <- Hf.
  - rewrite Hf in Hnil. now destruct (in_flight a).
  - rewrite Hui. now destruct o.
Qed.

Lemma run_idle_not_loading (events : list Event) (a a' : App) :
  (in_flight a = [] -> isLoading (ui a) = false) ->
  run a events = Some a' ->
  in_flight a' = [] -> isLoading (ui a') = false.
Proof.
  revert a; induction events as [|e events IH]; simpl; intros a Hidle H.
  - now injection H as <-.
  - destruct (step a e) as [a1|] eqn:Hstep; [|discriminate].
    apply (IH a1); [|exact H]. eapply step_idle_not_loading; eassumption.
Qed.

(** X7: the page is loading exactly while a request is out; and while one
    is out the submit button is disabled, the form cannot be submitted again
    and no result card is drawn. *)
Theorem loading_exactly_while_request_out :
  forall (Number_toString : float -> string) (events : list Event) (a : App),
    run start events = Some a ->
    (isLoading (ui a) = true <-> in_flight a <> [])
    /\ (in_flight a <> [] ->
        submit_disabled (render Number_toString (ui a)) = true
        /\ result_box (render Number_toString (ui a)) = None
        /\ step a FormSubmitted = None).
Proof.
  intros nts events a Hrun.
  pose proof (run_one_request_out _ _ _ start_one_request_out Hrun) as [_ Hout].
  pose proof (run_idle_not_loading events start a (fun _ => eq_refl) Hrun) as Hidle.
  split.
  - split.
    + intros Hl Hnil. rewrite (Hidle Hnil) in Hl. discriminate.
    + intros Hne. now destruct (Hout Hne).
  - intros Hne. destruct (Hout Hne) as [Hl Hr]. simpl.
    unfold submitDisabled. rewrite Hl, Hr. repeat split.
Qed.

Lemma loading_exactly_while_request_out_witness :
  exists a,
    run start [ModelsFetched (Some ["KNN"; "SVM"]); FileChosen (Some [track_wav]);
               ModelSelected "SVM"; FormSubmitted] = Some a
    /\ in_flight a <> []
    /\ (isLoading (ui a) = true <-> in_flight a <> []).
Proof.
  eexists. split; [reflexivity|]. split; [discriminate|].
  exact (proj1 (loading_exactly_while_request_out (fun _ => "")
                  [ModelsFetched (Some ["KNN"; "SVM"]); FileChosen (Some [track_wav]);
                   ModelSelected "SVM"; FormSubmitted]
                  _ eq_refl)).
Defined.

Lemma run_keeps_result (events : list Event) (a a' : App) (r : PredictionResult) :
  one_request_out a ->
  result (ui a) = Some r ->
  ~ In FormSubmitted events ->
  run a events = Some a' ->
  result (ui a') = Some r /\ in_flight a' = [] /\ forall o, ~ In (RequestSettled o) events.
Proof.
  revert a; induction events as [|e events IH]; simpl; intros a Hone Hres Hsub H.
  - injection H as <-. split; [exact Hres|]. split; [|intros o []].
    destruct Hone as [_ Hout]. destruct (in_flight a) as [|fd l]; [reflexivity|].
    destruct Hout as [_ Hn]; [discriminate | congruence].
  - destruct (step a e) as [a1|] eqn:Hstep; [|discriminate].
    assert (Hnil : in_flight a = []).
    { destruct Hone as [_ Hout]. destruct (in_flight a) as [|fd l]; [reflexivity|].
      destruct Hout as [_ Hn]; [discriminate | congruence]. }
    destruct (step_keeps_or_settles _ _ _ Hstep)
      as [(Hr & _ & Hf) | [(fd & -> & _) | (o & fd & -> & Hf & _)]].
    + destruct (IH a1) as (H1 & H2 & H3); try assumption.
      * eapply step_one_request_out; eassumption.
      * congruence.
      * intros C. apply Hsub. now right.
      * split; [exact H1|]. split; [exact H2|].
        intros o [-> | Hin]; [|exact (H3 o Hin)].
        simpl in Hstep. rewrite Hnil in Hstep. discriminate.
    + exfalso. apply Hsub. now left.
    + rewrite Hnil in Hf. discriminate.
Qed.

(** X8: a result on the page stays until the next submission: from a
    reachable page showing a result, events other than a submission (choosing
    or dropping files, picking a model, typing bounds, health and model
    answers) leave that result in place; no response can arrive either, since
    no request is out. *)
Theorem result_stays_until_next_submission :
  forall (before after : list Event) (a a' : App) (r : PredictionResult),
    run start before = Some a ->
    result (ui a) = Some r ->
    ~ In FormSubmitted after ->
    run a after = Some a' ->
    result (ui a') = Some r
    /\ in_flight a' = []
    /\ forall o, ~ In (RequestSettled o) after.
Proof.
  intros before after a a' r Hrun Hres Hsub Hafter.
  eapply run_keeps_result; try eassumption.
  eapply run_one_request_out; [apply start_one_request_out | exact Hrun].
Qed.

Lemma result_stays_until_next_submission_witness :
  exists a a',
    run start [FileChosen (Some [track_wav]); ModelSelected "SVM"; FormSubmitted;
               RequestSettled (Resolved (mkPredictionResult "sad" None "SVM" 12 "t0"))]
    = Some a
    /\ result (ui a) = Some (mkPredictionResult "sad" None "SVM" 12 "t0")
    /\ run a [FileDropped (Some [mkFile "notes.txt" []]); ChorusStartTyped "1";
              HealthChecked false] = Some a'
    /\ result (ui a') = Some (mkPredictionResult "sad" None "SVM" 12 "t0")
    /\ error (ui a') <> "".
Proof.
  eexists. eexists. split; [reflexivity|]. split; [reflexivity|].
  split; [reflexivity|]. split; [|discriminate].
  refine (proj1 (result_stays_until_next_submission
                   [FileChosen (Some [track_wav]); ModelSelected "SVM"; FormSubmitted;
                    RequestSettled (Resolved (mkPredictionResult "sad" None "SVM" 12 "t0"))]
                   [FileDropped (Some [mkFile "notes.txt" []]); ChorusStartTyped "1";
                    HealthChecked false]
                   _ _ _ eq_refl eq_refl _ eq_refl)).
  intros [C | [C | [C | []]]]; discriminate.
Defined.

Lemma step_stays_offline (a a' : App) (e : Event) :
  apiStatus (ui a) = offline ->
  e <> HealthChecked true ->
  step a e = Some a' ->
  apiStatus (ui a') = offline /\ e <> FormSubmitted
  /\ (List.length (in_flight a') <= List.length (in_flight a))%nat.
Proof.
  intros Hoff Hne. destruct e; simpl; intros H.
  - injection H as <-. destruct reachable; [congruence|]. repeat split; auto; discriminate.
  - injection H as <-. simpl.
    destruct answer as [[|m ms]|]; repeat split; auto; discriminate.
  - injection H as <-. repeat split; auto; discriminate.
  - injection H as <-. simpl. destruct files as [[|f fs]|]; simpl;
      try (repeat split; auto; discriminate).
    unfold take_file. destruct (is_audio_name (name f)); repeat split; auto; discriminate.
  - injection H as <-. repeat split; auto; discriminate.
  - injection H as <-. repeat split; auto; discriminate.
  - injection H as <-. simpl. destruct files as [[|f fs]|]; simpl;
      try (repeat split; auto; discriminate).
    unfold take_file. destruct (is_audio_name (name f)); repeat split; auto; discriminate.
  - injection H as <-. repeat split; auto; discriminate.
  - injection H as <-. repeat split; auto; discriminate.
  - unfold submitDisabled in H. rewrite Hoff in H. rewrite orb_true_r in H. discriminate.
  - destruct (in_flight a) as [|fd rest]; [discriminate|]. injection H as <-.
    simpl. destruct o; repeat split; auto; discriminate.
Qed.

(** X9: once the health check has failed the page sends nothing: the
    failed check leaves the status offline with the connection error shown
    and the button disabled, and from an offline page no event sequence
    without a successful health check contains a submission the page lets
    through, adds a request, or changes the status. *)
Theorem offline_page_sends_nothing :
  (forall (Number_toString : float -> string) (s : State),
      apiStatus (checkApiHealth false s) = offline
      /\ submit_disabled (render Number_toString (checkApiHealth false s)) = true
      /\ error_box (render Number_toString (checkApiHealth false s))
         = Some "Cannot connect to API server. Please ensure the backend is running.")
  /\ (forall (events : list Event) (a a' : App),
      apiStatus (ui a) = offline ->
      never_reachable events ->
      run a events = Some a' ->
      apiStatus (ui a') = offline
      /\ ~ In FormSubmitted events
      /\ (List.length (in_flight a') <= List.length (in_flight a))%nat).
Proof.
  split.
  - intros nts s. simpl. unfold submitDisabled. simpl.
    repeat split. now rewrite orb_true_r.
  - intros events. induction events as [|e events IH]; simpl; intros a a' Hoff Hnever H.
    + injection H as <-. repeat split; auto.
    + destruct (step a e) as [a1|] eqn:Hstep; [|discriminate].
      assert (He : e <> HealthChecked true).
      { intros ->. apply Hnever. now left. }
      destruct (step_stays_offline _ _ _ Hoff He Hstep) as (Hoff1 & Hsub & Hlen).
      destruct (IH a1 a' Hoff1) as (H1 & H2 & H3); [|exact H|].
      * intros C. apply Hnever. now right.
      * repeat split; [exact H1 | | lia].
        intros [C | C]; [now apply Hsub | now apply H2].
Qed.

Lemma offline_page_sends_nothing_witness :
  exists a',
    run (mkApp (checkApiHealth false ready) [])
        [FileChosen (Some [track_wav]); ChorusStartTyped "3"] = Some a'
    /\ apiStatus (ui a') = offline
    /\ ~ In FormSubmitted [FileChosen (Some [track_wav]); ChorusStartTyped "3"]
    /\ (List.length (in_flight a') <= 0)%nat.
Proof.
  eexists. split; [reflexivity|].
  refine (proj2 offline_page_sends_nothing
            [FileChosen (Some [track_wav]); ChorusStartTyped "3"]
            (mkApp (checkApiHealth false ready) []) _ eq_refl _ eq_refl).
  intros [C | [C | []]]; discriminate.
Defined.

End PageInvariants.

Section RunFacts.

Import JS Frontend Vocabulary.

(** X10: what the page shows after a run of [handleSubmit] whose request is
    rejected: the error box holds the response's [detail] when there is a
    non-empty one, and the fixed message when the error has no response, the
    response no data, the data no detail, or the detail is empty; no result
    card is drawn, and the form keeps its file, model and bounds for another
    try. *)
Theorem rejected_run_shows_detail_or_default :
  forall (Number_toString : float -> string) (post : FormData -> AxiosOutcome)
         (s s' : State) (fd : FormData) (err : AxiosError),
    handleSubmit_send s = (s', Some fd) ->
    post fd = Rejected err ->
    (forall d, detail_of err = Some d -> d <> "" ->
       error_box (render Number_toString (handleSubmit post s)) = Some d)
    /\ (response err = None
        \/ (exists r, response err = Some r /\ data r = None)
        \/ (exists r b, response err = Some r /\ data r = Some b
                        /\ (detail b = None \/ detail b = Some "")) ->
        error_box (render Number_toString (handleSubmit post s))
        = Some "Prediction failed. Please try again.")
    /\ result_box (render Number_toString (handleSubmit post s)) = None
    /\ audioFile (handleSubmit post s) = audioFile s
    /\ selectedModel (handleSubmit post s) = selectedModel s
    /\ chorusStart (handleSubmit post s) = chorusStart s
    /\ chorusEnd (handleSubmit post s) = chorusEnd s.
Proof.
  intros nts post s s' fd err Hsend Hpost.
  unfold handleSubmit. rewrite Hsend, Hpost.
  unfold handleSubmit_send in Hsend.
  destruct (audioFile s) as [f|] eqn:Hf; [|discriminate].
  destruct (truthy (selectedModel s)); simpl in Hsend; [|discriminate].
  injection Hsend as <- _. simpl.
  pose proof (errorMessage_nonempty err) as Hne. apply truthy_nonempty in Hne.
  rewrite Hne. repeat split; try assumption.
  - intros d Hd Hd'. unfold errorMessage. rewrite Hd.
    apply truthy_nonempty in Hd'. now rewrite Hd'.
  - unfold errorMessage, detail_of.
    intros [-> | [(r & -> & ->) | (r & b & -> & -> & [-> | ->])]]; reflexivity.
Qed.

Lemma rejected_run_shows_detail_or_default_witness :
  error_box (render (fun _ => "") (handleSubmit refuse_all ready))
  = Some "Prediction failed. Please try again.".
Proof.
  refine (proj1 (proj2 (rejected_run_shows_detail_or_default (fun _ => "") refuse_all ready
                          (fst (handleSubmit_send ready))
                          [("file", FileValue track_wav); ("model_name", TextValue "KNN")]
                          (mkAxiosError None) eq_refl eq_refl)) _).
  left. reflexivity.
Defined.

(** X11: what the page shows after a run of [handleSubmit] whose request
    resolves: the result card of the response, no error box whatever error
    was shown before, and the submit button usable again unless the service
    is marked offline; the file, the model and the bounds are kept. *)
Theorem resolved_run_shows_result :
  forall (Number_toString : float -> string) (post : FormData -> AxiosOutcome)
         (s s' : State) (fd : FormData) (d : PredictionResult),
    handleSubmit_send s = (s', Some fd) ->
    post fd = Resolved d ->
    result_box (render Number_toString (handleSubmit post s))
    = Some (render_result Number_toString d)
    /\ error_box (render Number_toString (handleSubmit post s)) = None
    /\ submit_disabled (render Number_toString (handleSubmit post s))
       = match apiStatus s with offline => true | _ => false end
    /\ audioFile (handleSubmit post s) = audioFile s
    /\ selectedModel (handleSubmit post s) = selectedModel s
    /\ chorusStart (handleSubmit post s) = chorusStart s
    /\ chorusEnd (handleSubmit post s) = chorusEnd s.
Proof.
  intros nts post s s' fd d Hsend Hpost.
  unfold handleSubmit. rewrite Hsend, Hpost.
  unfold handleSubmit_send in Hsend.
  destruct (audioFile s) as [f|] eqn:Hf; [|discriminate].
  destruct (truthy (selectedModel s)); simpl in Hsend; [|discriminate].
  injection Hsend as <- _. simpl. unfold submitDisabled. simpl. rewrite Hf.
  repeat split.
Qed.

Lemma resolved_run_shows_result_witness :
  result_box (render (fun _ => "")
                (handleSubmit (fun _ => Resolved (mkPredictionResult "fear" (Some 0%float) "KNN" 0%float "t0"))
                              (setError "Please select a model" ready)))
  = Some (render_result (fun _ => "") (mkPredictionResult "fear" (Some 0%float) "KNN" 0%float "t0"))
  /\ error_box (render (fun _ => "")
                  (handleSubmit (fun _ => Resolved (mkPredictionResult "fear" (Some 0%float) "KNN" 0%float "t0"))
                                (setError "Please select a model" ready)))
     = None.
Proof.
  pose proof (resolved_run_shows_result (fun _ => "")
                (fun _ => Resolved (mkPredictionResult "fear" (Some 0%float) "KNN" 0%float "t0"))
                (setError "Please select a model" ready)
                (fst (handleSubmit_send (setError "Please select a model" ready)))
                [("file", FileValue track_wav); ("model_name", TextValue "KNN")]
                (mkPredictionResult "fear" (Some 0%float) "KNN" 0%float "t0") eq_refl eq_refl)
    as (H1 & H2 & _).
  exact (conj H1 H2).
Defined.

(** X12: the model list: a failed fetch changes nothing; a non-empty answer
    replaces the list and selects its first entry, whatever was selected
    before, and that entry is what the next submission sends as
    [model_name]; an empty answer empties the list, disables the selector
    and leaves the earlier selection in place. *)
Theorem fetched_models_select_the_first :
  forall (Number_toString : float -> string) (s : State),
    fetchModels None s = s
    /\ (forall m ms,
          models (fetchModels (Some (m :: ms)) s) = m :: ms
          /\ selectedModel (fetchModels (Some (m :: ms)) s) = m
          /\ select_disabled (render Number_toString (fetchModels (Some (m :: ms)) s)) = false
          /\ (forall f, audioFile s = Some f -> m <> "" ->
               exists fd, snd (handleSubmit_send (fetchModels (Some (m :: ms)) s)) = Some fd
                          /\ get "model_name" fd = Some (TextValue m)))
    /\ (models (fetchModels (Some []) s) = []
        /\ selectedModel (fetchModels (Some []) s) = selectedModel s
        /\ select_disabled (render Number_toString (fetchModels (Some []) s)) = true).
Proof.
  intros nts s. split; [reflexivity|]. split; [|repeat split].
  intros m ms. repeat split.
  intros f Hf Hm. unfold handleSubmit_send. simpl. rewrite Hf.
  apply truthy_nonempty in Hm. rewrite Hm. simpl.
  eexists. split; [reflexivity|].
  destruct (truthy (chorusStart s)); destruct (truthy (chorusEnd s)); reflexivity.
Qed.

Lemma fetched_models_select_the_first_witness :
  exists fd,
    snd (handleSubmit_send (fetchModels (Some ["SVM"; "KNN"]) ready)) = Some fd
    /\ get "model_name" fd = Some (TextValue "SVM").
Proof.
  refine (proj2 (proj2 (proj2 (proj1 (proj2
            (fetched_models_select_the_first (fun _ => "") ready)) "SVM" ["KNN"])))
            track_wav eq_refl _).
  discriminate.
Defined.

End RunFacts.

Section ViewFacts.

Import JS Frontend Vocabulary.

(** X13: what the upload box shows after a selection.  An accepted file
    puts its name on the box and removes the error box, whatever error was
    shown before (the connection error too), and the button is then disabled
    only by a running request or an offline service; a rejected file puts
    back the invitation to upload, shows the format error and disables the
    button, even when a good file was stored before. *)
Theorem upload_box_after_selection :
  forall (Number_toString : float -> string) (file : File) (others : list File)
         (s : State),
    (is_audio_name (name file) = true ->
     file_label (render Number_toString (handleFileChange (Some (file :: others)) s))
     = name file
     /\ error_box (render Number_toString (handleFileChange (Some (file :: others)) s))
        = None
     /\ submit_disabled (render Number_toString (handleFileChange (Some (file :: others)) s))
        = (isLoading s || match apiStatus s with offline => true | _ => false end))
    /\ (is_audio_name (name file) = false ->
        file_label (render Number_toString (handleFileChange (Some (file :: others)) s))
        = "Drag & drop or click to upload"
        /\ error_box (render Number_toString (handleFileChange (Some (file :: others)) s))
           = Some "Please upload a valid MP3 or WAV file"
        /\ submit_disabled
             (render Number_toString (handleFileChange (Some (file :: others)) s))
           = true).
Proof.
  intros nts file others s. simpl. unfold take_file, submitDisabled.
  split; intros ->; simpl; repeat split.
  - now rewrite orb_false_r.
  - now rewrite orb_true_r.
Qed.

Lemma upload_box_after_selection_witness :
  is_audio_name (name track_wav) = true
  /\ error_box (render (fun _ => "")
                  (handleFileChange (Some [track_wav]) (checkApiHealth false initial)))
     = None
  /\ submit_disabled (render (fun _ => "")
                        (handleFileChange (Some [track_wav]) (checkApiHealth false initial)))
     = true.
Proof.
  split; [reflexivity|].
  pose proof (proj1 (upload_box_after_selection (fun _ => "") track_wav []
                       (checkApiHealth false initial)) eq_refl) as (_ & H2 & H3).
  exact (conj H2 H3).
Defined.

Lemma own_property_absent (key : string) (table : list (string * string)) :
  ~ In key (map fst table) -> own_property key table = None.
Proof.
  induction table as [|[k v] rest IH]; simpl; intros H; [reflexivity|].
  destruct (String.eqb_spec k key) as [-> | _]; [elim H; now left|].
  apply IH. intros C. apply H. now right.
Qed.

Lemma own_property_value (key v : string) (table : list (string * string)) :
  own_property key table = Some v -> In key (map fst table) /\ In v (map snd table).
Proof.
  induction table as [|[k x] rest IH]; simpl; [discriminate|].
  destruct (String.eqb_spec k key) as [-> | _].
  - intros H; injection H as ->. split; now left.
  - intros H. destruct (IH H). split; now right.
Qed.

Lemma own_property_injective (k k' v : string) (table : list (string * string)) :
  NoDup (map snd table) ->
  own_property k table = Some v -> own_property k' table = Some v -> k = k'.
Proof.
  induction table as [|[k0 x] rest IH]; simpl; [discriminate|].
  intros Hnd. apply NoDup_cons_iff in Hnd. destruct Hnd as [Hx Hrest].
  destruct (String.eqb_spec k0 k) as [E | _]; destruct (String.eqb_spec k0 k') as [E' | _].
  - congruence.
  - intros H H'. injection H as ->. apply own_property_value in H'. now elim Hx.
  - intros H H'. injection H' as ->. apply own_property_value in H. now elim Hx.
  - now apply IH.
Qed.

Lemma lookup_or_own (table : list (string * string)) (key fallback v : string) :
  own_property key table = Some v -> v <> "" ->
  lookup_or table key fallback = ClassName v.
Proof.
  intros H Hv. unfold lookup_or. rewrite H. apply truthy_nonempty in Hv. now rewrite Hv.
Qed.

Lemma lookup_or_found (table : list (string * string)) (key fallback c : string) :
  lookup_or table key fallback = ClassName c -> c <> fallback ->
  own_property key table = Some c.
Proof.
  unfold lookup_or. destruct (own_property key table) as [v|].
  - destruct (truthy v); intros H Hc; injection H as <-; [reflexivity | now elim Hc].
  - destruct (existsb _ _); intros H Hc; [discriminate | injection H as <-; now elim Hc].
Qed.

Lemma known_emotion_classes (key : string) :
  In key emotion_names ->
  exists c g,
    own_property key colors = Some c /\ own_property key gradients = Some g
    /\ c <> "" /\ g <> "" /\ c <> "text-white"
    /\ g <> "from-purple-500/20 to-pink-500/20"
    /\ ~ In key object_prototype_members.
Proof.
  simpl. intros H.
  repeat (destruct H as [<- | H];
          [eexists; eexists; repeat split; try reflexivity; try discriminate;
           simpl; intuition discriminate|]).
  now elim H.
Qed.

(** X14: the colour and gradient of an emotion.  The two tables have the
    same seven keys and are read with the lowercased emotion: a known emotion
    gets its own class from each table, never the fallback, and two emotions
    with the same colour are the same name up to case; every spelling of a
    known name that differs from it only in the case of its letters gets the
    classes of the name; a name that is neither known nor a member of
    [Object.prototype] gets both fallbacks; a member of [Object.prototype]
    (as [constructor]) gets the inherited value, not a class name. *)
Theorem emotion_classes :
  forall (e : string),
    (In (toLowerCase e) emotion_names ->
     exists c g,
       getEmotionColor e = ClassName c /\ getEmotionGradient e = ClassName g
       /\ c <> "text-white" /\ g <> "from-purple-500/20 to-pink-500/20"
       /\ forall e', getEmotionColor e' = getEmotionColor e ->
                     toLowerCase e' = toLowerCase e)
    /\ (~ In (toLowerCase e) emotion_names ->
        ~ In (toLowerCase e) object_prototype_members ->
        getEmotionColor e = ClassName "text-white"
        /\ getEmotionGradient e = ClassName "from-purple-500/20 to-pink-500/20")
    /\ (In (toLowerCase e) object_prototype_members ->
        getEmotionColor e = Inherited (toLowerCase e)
        /\ getEmotionGradient e = Inherited (toLowerCase e))
    /\ (forall n, In n emotion_names -> In e (case_variants n) ->
        getEmotionColor e = getEmotionColor n
        /\ getEmotionGradient e = getEmotionGradient n).
Proof.
  intros e. unfold getEmotionColor, getEmotionGradient.
  repeat apply conj.
  - intros Hin. destruct (known_emotion_classes _ Hin) as (c & g & Hc & Hg & Hc0 & Hg0 & Hcw & Hgw & _).
    exists c, g. rewrite (lookup_or_own _ _ _ _ Hc Hc0), (lookup_or_own _ _ _ _ Hg Hg0).
    repeat split; try assumption.
    intros e' He'. apply lookup_or_found in He'; [|exact Hcw].
    eapply own_property_injective; [|exact He' | exact Hc].
    simpl. repeat constructor; simpl; intuition discriminate.
  - intros Hn Hp. unfold lookup_or.
    rewrite !own_property_absent by exact Hn.
    destruct (existsb _ object_prototype_members) eqn:E; [|now split].
    apply existsb_exists in E. destruct E as (m & Hm & Heq).
    apply String.eqb_eq in Heq. subst m. now elim Hp.
  - intros Hp. unfold lookup_or.
    assert (Hn : ~ In (toLowerCase e) emotion_names).
    { intros C. destruct (known_emotion_classes _ C) as (_ & _ & _ & _ & _ & _ & _ & _ & H).
      now apply H. }
    rewrite !own_property_absent by exact Hn.
    assert (E : existsb (String.eqb (toLowerCase e)) object_prototype_members = true).
    { apply existsb_exists. exists (toLowerCase e). split; [exact Hp | apply String.eqb_refl]. }
    rewrite E. now split.
  - intros n _ He. apply case_variants_lower in He. rewrite He. now split.
Qed.

Lemma emotion_classes_witness :
  In (toLowerCase "Happy") emotion_names
  /\ exists c g,
       getEmotionColor "Happy" = ClassName c /\ getEmotionGradient "Happy" = ClassName g
       /\ c <> "text-white" /\ g <> "from-purple-500/20 to-pink-500/20"
       /\ forall e', getEmotionColor e' = getEmotionColor "Happy" ->
                     toLowerCase e' = toLowerCase "Happy".
Proof.
  assert (H : In (toLowerCase "Happy") emotion_names) by (left; reflexivity).
  split; [exact H|]. exact (proj1 (emotion_classes "Happy") H).
Defined.

Lemma replace_underscores_get (s : string) (n : nat) :
  String.get n (replace_underscores s)
  = match String.get n s with
    | Some c => Some (if Ascii.eqb c "_"%char then " "%char else c)
    | None => None
    end.
Proof.
  revert n; induction s as [|c s IH]; intros n; simpl; [reflexivity|].
  destruct n as [|n]; [reflexivity | apply IH].
Qed.

(** X15: the model name on the result card: every underscore of
    [model_used], not only the first, is shown as a space, every other
    character is shown as it is and in its place, and the text is as long as
    the name. *)
Theorem model_label_replaces_every_underscore :
  forall (Number_toString : float -> string) (r : PredictionResult) (n : nat),
    String.length (model_shown (render_result Number_toString r))
    = String.length (model_used r)
    /\ String.get n (model_shown (render_result Number_toString r)) <> Some "_"%char
    /\ (String.get n (model_used r) = Some "_"%char ->
        String.get n (model_shown (render_result Number_toString r)) = Some " "%char)
    /\ (forall c, String.get n (model_used r) = Some c -> c <> "_"%char ->
        String.get n (model_shown (render_result Number_toString r)) = Some c).
Proof.
  intros nts r n. simpl. rewrite replace_underscores_get. repeat apply conj.
  - generalize (model_used r). intros s.
    induction s as [|c s IH]; simpl; [reflexivity | now rewrite IH].
  - destruct (String.get n (model_used r)) as [c|]; [|discriminate].
    destruct (Ascii.eqb_spec c "_"%char); [discriminate | congruence].
  - intros ->. reflexivity.
  - intros c -> Hc. destruct (Ascii.eqb_spec c "_"%char); [contradiction | reflexivity].
Qed.

Lemma model_label_replaces_every_underscore_witness :
  String.get 8 "Logistic_Regression" = Some "_"%char
  /\ String.get 8 (model_shown (render_result (fun _ => "")
                                  (mkPredictionResult "sad" None "Logistic_Regression" 3 "t0")))
     = Some " "%char.
Proof.
  split; [reflexivity|].
  exact (proj1 (proj2 (proj2 (model_label_replaces_every_underscore (fun _ => "")
           (mkPredictionResult "sad" None "Logistic_Regression" 3 "t0") 8))) eq_refl).
Defined.

End ViewFacts.

Section ConfidenceFacts.

Import JS Frontend Vocabulary.




End ConfidenceFacts.
